(** * stopwatch-rs: a shallow embedding of src/main.rs

    The clock arithmetic of [counter], the [Timer]/[State] registry with its
    methods, [State::new] and the key dispatch of the main loop.  The
    [Arc<Mutex<Time>>] shared between a timer and its counter task is a
    location into an explicit heap of [Time] values. *)

From Stdlib Require Import ZArith Lia Ascii.
From stdpp Require Import base list strings pretty.

Open Scope Z_scope.

(* ------------------------------------------------------------------ *)
(** ** Time and the body of [counter] *)

(** Rust [u16] arithmetic as built with the release profile
    ([overflow-checks = false]): [+=] wraps modulo 2^16. *)
Definition u16_modulus : Z := 65536.
Definition u16_add (a b : Z) : Z := (a + b) mod u16_modulus.

(** [struct Time { second: u16, minute: u16, hour: u16, days: u16 }] *)
Record Time := mkTime {
  second : Z;
  minute : Z;
  hour : Z;
  days : Z
}.

(** [Time::new] *)
Definition Time_new : Time := mkTime 0 0 0 0.

(** One iteration of the [loop] in [counter], after [interval.tick()]
    and [time.lock()]: the carry chain on the guarded [Time]. *)
Definition advance (t : Time) : Time :=
  let s := u16_add (second t) 1 in
  if 59 <? s then
    let m := u16_add (minute t) 1 in
    if 59 <? m then
      let h := u16_add (hour t) 1 in
      if 23 <? h then mkTime 0 0 0 (u16_add (days t) 1)
      else mkTime 0 0 h (days t)
    else mkTime 0 m (hour t) (days t)
  else mkTime s (minute t) (hour t) (days t).

(** [n] ticks of the counter task, starting from [t]. *)
Definition ticks (n : nat) (t : Time) : Time := Nat.iter n advance t.

(** Range of the four fields. *)
Definition time_valid (t : Time) : Prop :=
  0 <= second t < 60 /\ 0 <= minute t < 60 /\ 0 <= hour t < 24 /\
  0 <= days t < u16_modulus.

(** Seconds represented by a [Time]. *)
Definition total_seconds (t : Time) : Z :=
  second t + 60 * minute t + 3600 * hour t + 86400 * days t.

(** Number of distinct valid [Time] values: one full wrap of [days]. *)
Definition clock_period : Z := 86400 * u16_modulus.

(** The last valid [Time]: [days = u16::MAX] at 23:59:59. *)
Definition time_max : Time := mkTime 59 59 23 65535.

Close Scope Z_scope.

(* ------------------------------------------------------------------ *)
(** ** The heap of shared clocks and the counter tasks *)

(** A [tokio::spawn]ed [counter] task: the location of the
    [Arc<Mutex<Time>>] it advances, and whether its [JoinHandle] has been
    [abort]ed. *)
Record Task := mkTask {
  task_loc : nat;
  task_aborted : bool
}.

(** The shared store: [heap !! l] is the [Time] behind the [Arc] at
    location [l]; [tasks !! i] is the task whose [JoinHandle] is [i]. *)
Record World := mkWorld {
  heap : list Time;
  tasks : list Task
}.

(** [Arc::new(Mutex::new(v))]: a fresh location. *)
Definition alloc (v : Time) (w : World) : nat * World :=
  (length (heap w), mkWorld (heap w ++ [v]) (tasks w)).

(** [tokio::spawn(async move { counter(l).await })]: a fresh handle. *)
Definition spawn_counter (l : nat) (w : World) : nat * World :=
  (length (tasks w), mkWorld (heap w) (tasks w ++ [mkTask l false])).

(** [handle.abort()] *)
Definition abort (i : nat) (w : World) : World :=
  mkWorld (heap w) (alter (fun tk => mkTask (task_loc tk) true) i (tasks w)).

(** One tick of the task with handle [i]: unless aborted, lock its clock
    and run the carry chain of [counter] on it. *)
Definition task_tick (i : nat) (w : World) : World :=
  match tasks w !! i with
  | Some tk =>
      if task_aborted tk then w
      else match heap w !! task_loc tk with
           | Some t => mkWorld (<[task_loc tk := advance t]> (heap w)) (tasks w)
           | None => w
           end
  | None => w
  end.

(* ------------------------------------------------------------------ *)
(** ** [Timer] and [State] *)

(** [struct Timer]: [timer_state] is the location of its
    [Arc<Mutex<Time>>], [task_handle] the handle of its counter task. *)
Record Timer := mkTimer {
  timer_state : nat;
  label : option string;
  task_handle : option nat
}.

(** [Timer::new(label)] *)
Definition Timer_new (lbl : option string) (w : World) : Timer * World :=
  let '(l, w') := alloc Time_new w in (mkTimer l lbl None, w').

(** [struct State] *)
Record State := mkState {
  timers : list Timer;
  selected_timer : nat;
  ui_update_rate_ms : Z;
  input_mode : bool;
  input_buffer : string;
  show_help : bool
}.

Definition set_timers (ts : list Timer) (s : State) : State :=
  mkState ts (selected_timer s) (ui_update_rate_ms s) (input_mode s)
    (input_buffer s) (show_help s).
Definition set_selected (i : nat) (s : State) : State :=
  mkState (timers s) i (ui_update_rate_ms s) (input_mode s)
    (input_buffer s) (show_help s).
Definition set_rate (r : Z) (s : State) : State :=
  mkState (timers s) (selected_timer s) r (input_mode s)
    (input_buffer s) (show_help s).
Definition set_input (m : bool) (buf : string) (s : State) : State :=
  mkState (timers s) (selected_timer s) (ui_update_rate_ms s) m buf
    (show_help s).
Definition set_help (b : bool) (s : State) : State :=
  mkState (timers s) (selected_timer s) (ui_update_rate_ms s) (input_mode s)
    (input_buffer s) b.

(** The capacity tested in [add_timer] and in the main loop. *)
Definition CAPACITY : nat := 8.

(** [State::new]: [args] is [env::args().collect()], program name first. *)
Definition State_new (args : list string) (w : World) : State * World :=
  let initial_label :=
    if Nat.eqb (length args) 2 then nth_error args 1 else None in
  let '(t, w') := Timer_new initial_label w in
  (mkState [t] 0 50%Z false EmptyString true, w').

(** [State::add_timer] *)
Definition add_timer (s : State) (w : World) : State * World :=
  if Nat.ltb (length (timers s)) CAPACITY then
    let '(t, w') := Timer_new None w in
    let ts := timers s ++ [t] in
    (set_selected (length ts - 1) (set_timers ts s), w')
  else (s, w).

(** [State::remove_timer]; [None] is a panic ([timers[i]] or
    [Vec::remove] out of bounds). *)
Definition remove_timer (s : State) (w : World) : option (State * World) :=
  if Nat.ltb 1 (length (timers s)) then
    match timers s !! selected_timer s with
    | None => None
    | Some t =>
        let w' := match task_handle t with
                  | Some h => abort h w
                  | None => w
                  end in
        let ts := delete (selected_timer s) (timers s) in
        let s' := set_timers ts s in
        let s'' := if Nat.leb (length ts) (selected_timer s)
                   then set_selected (length ts - 1) s' else s' in
        Some (s'', w')
    end
  else Some (s, w).

(** [State::toggle_help] *)
Definition toggle_help (s : State) : State := set_help (negb (show_help s)) s.

(** [State::next_timer] *)
Definition next_timer (s : State) : State :=
  match timers s with
  | [] => s
  | _ => set_selected (Nat.modulo (selected_timer s + 1) (length (timers s))) s
  end.

(** [State::set_label]; [None] is a panic ([timers[i]] out of bounds). *)
Definition set_label (s : State) : option State :=
  match timers s !! selected_timer s with
  | None => None
  | Some t =>
      let lbl := if String.eqb (input_buffer s) EmptyString then None
                 else Some (input_buffer s) in
      let ts := <[selected_timer s := mkTimer (timer_state t) lbl (task_handle t)]>
                  (timers s) in
      Some (set_input false EmptyString (set_timers ts s))
  end.

(* ------------------------------------------------------------------ *)
(** ** The key dispatch of the main loop *)

(** [crossterm::event::KeyCode], restricted to the codes [main] matches;
    every other code falls into [OtherKey]. *)
Inductive KeyCode :=
| Enter | Esc | Backspace | Up | Down | Tab
| Char (c : Ascii.ascii)
| OtherKey.

(** A [KeyEvent]: its code and whether [KeyModifiers::CONTROL] is held. *)
Record KeyEvent := mkKey {
  code : KeyCode;
  ctrl : bool
}.

(** What one key event does to the loop: go on with a new state, or enter
    the [confirm_loop] of [Ctrl+q]. *)
Inductive Outcome :=
| Continue (s : State) (w : World)
| ConfirmQuit (s : State) (w : World).

(** [String::push] and [String::pop] on the input buffer. *)
Definition string_push (buf : string) (c : Ascii.ascii) : string :=
  String.append buf (String c EmptyString).
Definition string_pop (buf : string) : string :=
  String.substring 0 (String.length buf - 1) buf.

(** [u64::saturating_sub] / [u64::saturating_add]. *)
Definition u64_max : Z := (2 ^ 64 - 1)%Z.
Definition saturating_sub (a b : Z) : Z := Z.max 0 (a - b)%Z.
Definition saturating_add (a b : Z) : Z := Z.min u64_max (a + b)%Z.

(** The [Ctrl+a] arm: [add_timer], then spawn the new timer's counter. *)
Definition add_timer_and_spawn (s : State) (w : World) : option (State * World) :=
  if Nat.ltb (length (timers s)) CAPACITY then
    let '(s1, w1) := add_timer s w in
    let idx := length (timers s1) - 1 in
    match timers s1 !! idx with
    | None => None
    | Some t =>
        let '(h, w2) := spawn_counter (timer_state t) w1 in
        let ts := <[idx := mkTimer (timer_state t) (label t) (Some h)]> (timers s1) in
        Some (set_timers ts s1, w2)
    end
  else Some (s, w).

(** The [if let Event::Key(key)] body of the main loop; [None] is a
    panic. *)
Definition handle_key (k : KeyEvent) (s : State) (w : World) : option Outcome :=
  if input_mode s then
    match code k with
    | Enter => option_map (fun s' => Continue s' w) (set_label s)
    | Esc => Some (Continue (set_input false EmptyString s) w)
    | Backspace => Some (Continue (set_input true (string_pop (input_buffer s)) s) w)
    | Char c => Some (Continue (set_input true (string_push (input_buffer s) c) s) w)
    | _ => Some (Continue s w)
    end
  else
    match code k with
    | Char c =>
        if Ascii.eqb c "q"%char && ctrl k then Some (ConfirmQuit s w)
        else if Ascii.eqb c "a"%char && ctrl k then
          option_map (fun '(s', w') => Continue s' w') (add_timer_and_spawn s w)
        else if Ascii.eqb c "d"%char && ctrl k then
          if Nat.ltb 1 (length (timers s)) then
            option_map (fun '(s', w') => Continue s' w') (remove_timer s w)
          else Some (Continue s w)
        else if Ascii.eqb c "h"%char then Some (Continue (toggle_help s) w)
        else if Ascii.eqb c "l"%char then
          Some (Continue (set_input true EmptyString s) w)
        else Some (Continue s w)
    | Up =>
        if (ui_update_rate_ms s <=? 10)%Z then Some (Continue s w)
        else Some (Continue (set_rate (saturating_sub (ui_update_rate_ms s) 5) s) w)
    | Down =>
        if (100 <=? ui_update_rate_ms s)%Z then Some (Continue s w)
        else Some (Continue (set_rate (saturating_add (ui_update_rate_ms s) 5) s) w)
    | Tab => Some (Continue (next_timer s) w)
    | _ => Some (Continue s w)
    end.

(** Start of [main]: [State::new()], then a counter task for each timer. *)
Definition spawn_all (s : State) (w : World) : State * World :=
  let fix go (ts : list Timer) (w : World) : list Timer * World :=
    match ts with
    | [] => ([], w)
    | t :: ts' =>
        let '(h, w1) := spawn_counter (timer_state t) w in
        let '(ts'', w2) := go ts' w1 in
        (mkTimer (timer_state t) (label t) (Some h) :: ts'', w2)
    end in
  let '(ts, w') := go (timers s) w in (set_timers ts s, w').

Definition startup (args : list string) : State * World :=
  let '(s, w) := State_new args (mkWorld [] []) in spawn_all s w.

(** The registry invariant of the claims. *)
Definition registry_ok (s : State) : Prop :=
  1 <= length (timers s) <= CAPACITY /\ selected_timer s < length (timers s).


(** The [Time] a reader of slot [i] finds behind its [Arc<Mutex<Time>>]. *)
Definition clock_of (s : State) (w : World) (i : nat) : option Time :=
  timers s !! i ≫= fun t => heap w !! timer_state t.

(** [select_previous()] as the spec describes it (no such method exists
    in [impl State]): [selected] moves one step backward, circularly. *)
Definition select_previous_spec (s : State) : State :=
  set_selected (Nat.modulo (selected_timer s + length (timers s) - 1)
                  (length (timers s))) s.

(** A registry of three running timers, the first one selected. *)
Definition three_timers : State :=
  mkState [mkTimer 0 None (Some 0); mkTimer 1 None (Some 1); mkTimer 2 None (Some 2)]
    0 50%Z false EmptyString false.
Definition three_timers_world : World :=
  mkWorld [Time_new; Time_new; Time_new]
    [mkTask 0 false; mkTask 1 false; mkTask 2 false].

(* ------------------------------------------------------------------ *)
(** ** The UI update rate and [draw_help] *)



(** [ratatui::layout::Rect] (all fields [u16]). *)
Record Rect := mkRect {
  rect_x : Z;
  rect_y : Z;
  rect_width : Z;
  rect_height : Z
}.

(** [u16::saturating_sub] and [u16] [-] (wrapping, as [u16_add]). *)
Definition u16_saturating_sub (a b : Z) : Z := Z.max 0 (a - b)%Z.
Definition u16_sub (a b : Z) : Z := ((a - b) mod u16_modulus)%Z.

(** [help_area] of [draw_help], for the frame area [area]. *)
Definition help_area (area : Rect) : Rect :=
  mkRect (u16_saturating_sub (rect_width area) 42)
    (u16_saturating_sub (rect_height area) 13)
    (Z.min (Z.max (rect_width area / 4) 38) (rect_width area))%Z
    (Z.min (Z.max (rect_height area / 3) 10) (rect_height area))%Z.

(** [prompt_area] of [draw_confirmation_prompt]. *)
Definition confirmation_area (area : Rect) : Rect :=
  let w := rect_width area in
  let h := rect_height area in
  let rect_w := (w / 2)%Z in
  let rect_h := (h / 4)%Z in
  let x_pos := (u16_sub w rect_w / 2)%Z in
  let y_pos := (u16_sub h rect_h / 2)%Z in
  mkRect x_pos y_pos rect_w rect_h.

(** Is [r] inside [area]? *)
Definition rect_within (r area : Rect) : Prop :=
  (rect_x area <= rect_x r)%Z /\ (rect_y area <= rect_y r)%Z /\
  (rect_x r + rect_width r <= rect_x area + rect_width area)%Z /\
  (rect_y r + rect_height r <= rect_y area + rect_height area)%Z.

(* ------------------------------------------------------------------ *)
(** ** [get_layout_areas] *)

Inductive Direction := Horizontal | Vertical.
Inductive Constraint := Percentage (p : Z).

Definition halves : list Constraint := [Percentage 50; Percentage 50].
Definition thirds : list Constraint := [Percentage 33; Percentage 33; Percentage 34].
Definition fourths : list Constraint :=
  [Percentage 25; Percentage 25; Percentage 25; Percentage 25].

(** [vec![chunks[i], ...]]: each index panics when out of range. *)
Definition pick (chunks : list Rect) (idx : list nat) : option (list Rect) :=
  mapM (fun i => chunks !! i) idx.

(** [get_layout_areas]; [split d cs r] stands for
    [Layout::default().direction(d).constraints(cs).split(r)]. *)
Definition get_layout_areas (split : Direction -> list Constraint -> Rect -> list Rect)
    (area : Rect) (timer_count : nat) : option (list Rect) :=
  let two_rows (top bottom : list Constraint) (ti bi : list nat) :=
    let rows := split Vertical halves area in
    r0 ← rows !! 0; r1 ← rows !! 1;
    a ← pick (split Horizontal top r0) ti;
    b ← pick (split Horizontal bottom r1) bi;
    Some (a ++ b) in
  match timer_count with
  | 1 => Some [area]
  | 2 => pick (split Horizontal halves area) [0; 1]
  | 3 => two_rows halves halves [0; 1] [1]
  | 4 => two_rows halves halves [0; 1] [1; 0]
  | 5 => two_rows thirds halves [0; 1; 2] [0; 1]
  | 6 => two_rows thirds thirds [0; 1; 2] [0; 1; 2]
  | 7 => two_rows fourths thirds [0; 1; 2; 3] [0; 1; 2]
  | 8 => two_rows fourths fourths [0; 1; 2; 3] [0; 1; 2; 3]
  | _ => Some [area]
  end.

(* ------------------------------------------------------------------ *)
(** ** [draw_timer_box] and one frame of the main loop *)







(* ------------------------------------------------------------------ *)
(** ** The [confirm_loop] of [Ctrl+q] and the runs of [main] *)

(** [confirm_loop] over the key codes it reads (non-key events are
    skipped by its [if let]): [Some true] is [break 'main_loop],
    [Some false] is [break 'confirm_loop], [None] is still waiting. *)
Fixpoint confirm_loop (ks : list KeyCode) : option bool :=
  match ks with
  | [] => None
  | Char c :: ks' =>
      if Ascii.eqb c "y"%char then Some true
      else if Ascii.eqb c "n"%char then Some false
      else confirm_loop ks'
  | _ :: ks' => confirm_loop ks'
  end.

(** Every timer has a live counter task on its own clock, and no two
    timers share a clock. *)
Definition world_ok (s : State) (w : World) : Prop :=
  (forall i t, timers s !! i = Some t ->
     timer_state t < length (heap w) /\
     exists h, task_handle t = Some h /\ tasks w !! h = Some (mkTask (timer_state t) false)) /\
  (forall i j ti tj, timers s !! i = Some ti -> timers s !! j = Some tj ->
     timer_state ti = timer_state tj -> i = j).



(** A layout split that hands every constraint the whole area. *)
Definition whole_split (d : Direction) (cs : list Constraint) (r : Rect) : list Rect :=
  map (fun _ => r) cs.

(* ================================================================== *)
(** * Proofs *)

(* ------------------------------------------------------------------ *)
(** ** The carry chain of [counter] *)

Module ClockFacts.
Local Open Scope Z_scope.

Lemma u16_add_small (a : Z) : 0 <= a -> a + 1 < u16_modulus -> u16_add a 1 = a + 1.
Proof. intros. unfold u16_add. apply Z.mod_small. lia. Qed.

Lemma u16_add_max : u16_add 65535 1 = 0.
Proof. reflexivity. Qed.

Ltac small_add :=
  repeat match goal with
  | |- context [u16_add ?a 1] =>
      rewrite (u16_add_small a) by (unfold u16_modulus in *; lia)
  end.

Lemma advance_valid (t : Time) : time_valid t -> time_valid (advance t).
Proof.
  destruct t as [s m h d]; unfold time_valid, advance; cbn.
  intros (Hs & Hm & Hh & Hd).
  assert (Hb : 0 <= u16_add d 1 < u16_modulus)
    by (apply Z.mod_pos_bound; reflexivity).
  small_add.
  destruct (Z.ltb_spec 59 (s + 1)); cbn; [|lia].
  small_add.
  destruct (Z.ltb_spec 59 (m + 1)); cbn; [|lia].
  small_add.
  destruct (Z.ltb_spec 23 (h + 1)); cbn; lia.
Qed.

Lemma advance_total (t : Time) :
  time_valid t -> t <> time_max -> total_seconds (advance t) = total_seconds t + 1.
Proof.
  destruct t as [s m h d]; unfold time_valid, time_max, total_seconds, advance; cbn.
  intros (Hs & Hm & Hh & Hd) Hne.
  small_add.
  destruct (Z.ltb_spec 59 (s + 1)); cbn; [|lia].
  small_add.
  destruct (Z.ltb_spec 59 (m + 1)); cbn; [|lia].
  small_add.
  destruct (Z.ltb_spec 23 (h + 1)); cbn; [|lia].
  assert (d <> 65535) by (intros ->; apply Hne; f_equal; lia).
  small_add. lia.
Qed.

Lemma advance_max : advance time_max = Time_new.
Proof. reflexivity. Qed.

Lemma valid_total_inj (t u : Time) :
  time_valid t -> time_valid u -> total_seconds t = total_seconds u -> t = u.
Proof.
  destruct t as [s1 m1 h1 d1], u as [s2 m2 h2 d2].
  unfold time_valid, total_seconds, u16_modulus; cbn.
  intros (? & ? & ? & ?) (? & ? & ? & ?) Heq.
  assert (d1 = d2) by lia. subst d2.
  assert (h1 = h2) by lia. subst h2.
  assert (m1 = m2) by lia. subst m2.
  assert (s1 = s2) by lia. subst s2.
  reflexivity.
Qed.

Lemma time_max_valid : time_valid time_max.
Proof. unfold time_valid, u16_modulus; cbn; lia. Qed.

Lemma time_max_total : total_seconds time_max = clock_period - 1.
Proof. reflexivity. Qed.

Lemma Time_new_valid : time_valid Time_new.
Proof. unfold time_valid, u16_modulus; cbn; lia. Qed.

Lemma ticks_S (n : nat) (t : Time) : ticks (S n) t = advance (ticks n t).
Proof. reflexivity. Qed.

Lemma ticks_valid (n : nat) : time_valid (ticks n Time_new).
Proof.
  induction n as [|n IH]; [apply Time_new_valid|].
  rewrite ticks_S. by apply advance_valid.
Qed.

Lemma ticks_total (n : nat) :
  total_seconds (ticks n Time_new) = Z.of_nat n mod clock_period.
Proof.
  induction n as [|n IH]; [reflexivity|].
  rewrite ticks_S, Nat2Z.inj_succ, <- Z.add_1_r, <- Z.add_mod_idemp_l
    by (unfold clock_period, u16_modulus; lia).
  assert (Hb : 0 <= Z.of_nat n mod clock_period < clock_period)
    by (apply Z.mod_pos_bound; reflexivity).
  destruct (Z.eq_dec (Z.of_nat n mod clock_period) (clock_period - 1)) as [Hl|Hl].
  - assert (ticks n Time_new = time_max) as ->.
    { apply valid_total_inj; [apply ticks_valid|apply time_max_valid|].
      by rewrite IH, Hl, time_max_total. }
    rewrite advance_max, Hl, Z.sub_add, Z.mod_same by (unfold clock_period, u16_modulus; lia).
    reflexivity.
  - assert (Hne : ticks n Time_new <> time_max).
    { intros Hm. apply Hl. by rewrite <- IH, Hm, time_max_total. }
    rewrite (advance_total _ (ticks_valid n) Hne), IH.
    rewrite (Z.mod_small (_ + 1)); lia.
Qed.

Lemma days_total (t : Time) : time_valid t -> days t = total_seconds t / 86400.
Proof.
  destruct t as [s m h d]; unfold time_valid, total_seconds; cbn.
  intros (? & ? & ? & ?).
  apply Z.div_unique with (r := s + 60 * m + 3600 * h); lia.
Qed.

Lemma ticks_days (n : nat) :
  Z.of_nat n < clock_period -> days (ticks n Time_new) = Z.of_nat n / 86400.
Proof.
  intros Hn. rewrite days_total by apply ticks_valid.
  rewrite ticks_total, Z.mod_small; [reflexivity|lia].
Qed.

Lemma ticks_at_max (n : nat) :
  Z.of_nat n = clock_period - 1 -> ticks n Time_new = time_max.
Proof.
  intros Hn. apply valid_total_inj; [apply ticks_valid|apply time_max_valid|].
  rewrite ticks_total, Hn, time_max_total, Z.mod_small; [reflexivity|].
  unfold clock_period, u16_modulus; lia.
Qed.

End ClockFacts.

(* ------------------------------------------------------------------ *)
(** ** The registry methods *)

Module RegistryFacts.

Lemma set_selected_same (s : State) : set_selected (selected_timer s) s = s.
Proof. by destruct s. Qed.

Lemma timers_set_selected (i : nat) (s : State) : timers (set_selected i s) = timers s.
Proof. reflexivity. Qed.

Lemma add_timer_eq (s : State) (w : World) :
  length (timers s) < CAPACITY ->
  add_timer s w =
    (let ts := timers s ++ [mkTimer (length (heap w)) None None] in
     set_selected (length ts - 1) (set_timers ts s),
     mkWorld (heap w ++ [Time_new]) (tasks w)).
Proof.
  intros Hl. unfold add_timer.
  destruct (Nat.ltb_spec (length (timers s)) CAPACITY); [reflexivity|lia].
Qed.

Lemma add_timer_full (s : State) (w : World) :
  CAPACITY <= length (timers s) -> add_timer s w = (s, w).
Proof.
  intros Hl. unfold add_timer.
  destruct (Nat.ltb_spec (length (timers s)) CAPACITY); [lia|reflexivity].
Qed.

Lemma remove_timer_eq (s : State) (w : World) (t : Timer) :
  1 < length (timers s) -> timers s !! selected_timer s = Some t ->
  remove_timer s w =
    Some (let ts := delete (selected_timer s) (timers s) in
          set_selected (Nat.min (selected_timer s) (length ts - 1)) (set_timers ts s),
          match task_handle t with Some h => abort h w | None => w end).
Proof.
  intros Hl Ht. unfold remove_timer. rewrite Ht.
  destruct (Nat.ltb_spec 1 (length (timers s))); [|lia].
  pose proof (lookup_lt_Some _ _ _ Ht) as Hi.
  rewrite length_delete by eauto.
  destruct (Nat.leb_spec (length (timers s) - 1) (selected_timer s)).
  - do 3 f_equal. lia.
  - rewrite Nat.min_l by lia. by destruct s.
Qed.

Lemma remove_timer_single (s : State) (w : World) :
  length (timers s) = 1 -> remove_timer s w = Some (s, w).
Proof.
  intros Hl. unfold remove_timer.
  destruct (Nat.ltb_spec 1 (length (timers s))); [lia|reflexivity].
Qed.

Lemma abort_heap (i : nat) (w : World) : heap (abort i w) = heap w.
Proof. reflexivity. Qed.

Lemma next_timer_timers (s : State) : timers (next_timer s) = timers s.
Proof. unfold next_timer. by destruct (timers s) eqn:E. Qed.

Lemma next_timer_selected (s : State) :
  timers s <> [] ->
  selected_timer (next_timer s) = Nat.modulo (selected_timer s + 1) (length (timers s)).
Proof. unfold next_timer. intros Hne. by destruct (timers s) eqn:E. Qed.

Lemma iter_next_timer_timers (k : nat) (s : State) :
  timers (Nat.iter k next_timer s) = timers s.
Proof.
  induction k as [|k IH]; [reflexivity|].
  by rewrite Nat.iter_succ, next_timer_timers.
Qed.

Lemma iter_next_timer_selected (k : nat) (s : State) :
  selected_timer s < length (timers s) ->
  selected_timer (Nat.iter k next_timer s) =
    Nat.modulo (selected_timer s + k) (length (timers s)).
Proof.
  intros Hs. assert (Hne : timers s <> []) by (intros E; rewrite E in Hs; simpl in Hs; lia).
  induction k as [|k IH].
  - rewrite Nat.add_0_r, Nat.mod_small by lia. reflexivity.
  - rewrite Nat.iter_succ, next_timer_selected by (by rewrite iter_next_timer_timers).
    rewrite iter_next_timer_timers, IH, Nat.Div0.add_mod_idemp_l.
    f_equal. lia.
Qed.

Lemma set_label_eq (s : State) (t : Timer) :
  timers s !! selected_timer s = Some t ->
  set_label s =
    Some (set_input false EmptyString
            (set_timers (<[selected_timer s :=
               mkTimer (timer_state t)
                 (if String.eqb (input_buffer s) EmptyString then None
                  else Some (input_buffer s))
                 (task_handle t)]> (timers s)) s)).
Proof. intros Ht. unfold set_label. by rewrite Ht. Qed.


Lemma add_timer_and_spawn_len (s s' : State) (w w' : World) :
  add_timer_and_spawn s w = Some (s', w') ->
  s' = s \/ length (timers s') = S (length (timers s)).
Proof.
  unfold add_timer_and_spawn.
  destruct (Nat.ltb_spec (length (timers s)) CAPACITY) as [Hl|Hl].
  - rewrite add_timer_eq by exact Hl. cbn.
    destruct ((timers s ++ [mkTimer (length (heap w)) None None])
                !! (length (timers s ++ [mkTimer (length (heap w)) None None]) - 1));
      [|discriminate].
    intros H. injection H as <- <-. right. cbn.
    rewrite length_insert, length_app. cbn. lia.
  - intros H. injection H as <- <-. by left.
Qed.

(** No key event of the main loop moves the selection other than one step
    forward, unless it changes the number of timers. *)
Lemma handle_key_selection (k : KeyEvent) (s s' : State) (w w' : World) :
  registry_ok s -> handle_key k s w = Some (Continue s' w') ->
  length (timers s') = length (timers s) ->
  selected_timer s' = selected_timer s \/
  selected_timer s' = Nat.modulo (selected_timer s + 1) (length (timers s)).
Proof.
  intros [Hlen Hsel] H Hl. unfold handle_key in H.
  destruct (input_mode s).
  - destruct (code k); try (injection H as <- <-; by left).
    destruct (lookup_lt_is_Some_2 (timers s) (selected_timer s) Hsel) as [t Ht].
    rewrite (set_label_eq s t Ht) in H. injection H as <- <-. by left.
  - destruct (code k) as [| | | | | |c|].
    all: try (injection H as <- <-; by left).
    + destruct (ui_update_rate_ms s <=? 10)%Z; injection H as <- <-; by left.
    + destruct (100 <=? ui_update_rate_ms s)%Z; injection H as <- <-; by left.
    + injection H as <- <-. right. apply next_timer_selected.
      intros E. rewrite E in Hlen. cbn in Hlen. lia.
    + destruct (Ascii.eqb c "q"%char && ctrl k); [discriminate|].
      destruct (Ascii.eqb c "a"%char && ctrl k).
      { destruct (add_timer_and_spawn s w) as [[s1 w1]|] eqn:E; [|discriminate].
        injection H as <- <-.
        destruct (add_timer_and_spawn_len _ _ _ _ E) as [->|E']; [by left|lia]. }
      destruct (Ascii.eqb c "d"%char && ctrl k).
      { destruct (Nat.ltb_spec 1 (length (timers s))) as [H1|H1].
        - destruct (lookup_lt_is_Some_2 (timers s) (selected_timer s) Hsel) as [t Ht].
          rewrite (remove_timer_eq s w t H1 Ht) in H. injection H as <- <-.
          cbn in Hl. rewrite length_delete in Hl by eauto. lia.
        - injection H as <- <-. by left. }
      destruct (Ascii.eqb c "h"%char); [injection H as <- <-; by left|].
      destruct (Ascii.eqb c "l"%char); injection H as <- <-; by left.
Qed.

End RegistryFacts.

(* ================================================================== *)
(** * The claims *)

Import ClockFacts RegistryFacts.

(* ------------------------------------------------------------------ *)
(** ** C1: field ranges of the counter's [Time] *)

(** C1 (as amended): from [Time::new], every number of [counter] ticks
    leaves [0 <= second < 60], [0 <= minute < 60], [0 <= hour < 24]
    (and [days] within [u16]); [days] is non-decreasing over the first
    [86400 * 65536] ticks, i.e. until it would leave the [u16] range. *)
Theorem C1_ranges_and_days_monotone (n : nat) :
  time_valid (ticks n Time_new) /\
  (forall m : nat, (m <= n)%nat -> (Z.of_nat n < clock_period)%Z ->
     (days (ticks m Time_new) <= days (ticks n Time_new))%Z).
Proof.
  split; [apply ticks_valid|].
  intros m Hmn Hn.
  rewrite !ticks_days by lia.
  apply Z.div_le_mono; lia.
Qed.

Lemma C1_witness :
  (50 <= 100)%nat /\ (Z.of_nat 100%nat < clock_period)%Z /\
  (days (ticks 50%nat Time_new) <= days (ticks 100%nat Time_new))%Z.
Proof.
  split; [lia|]. split; [vm_compute; reflexivity|].
  apply (proj2 (C1_ranges_and_days_monotone 100%nat) 50%nat); [lia|vm_compute; reflexivity].
Defined.

(** C1 counterexample: [days] is a [u16]; after [86400 * 65536 - 1] ticks
    the clock reads [days = 65535] at 23:59:59, and the next tick wraps
    [days] back to [0], so [days] is not non-decreasing and does wrap. *)
Lemma C1_days_wraps :
  days (ticks (Z.to_nat (clock_period - 1)%Z) Time_new) = 65535%Z /\
  days (ticks (S (Z.to_nat (clock_period - 1)%Z)) Time_new) = 0%Z.
Proof.
  assert (Hn : Z.of_nat (Z.to_nat (clock_period - 1)%Z) = (clock_period - 1)%Z).
  { rewrite Z2Nat.id; [reflexivity|unfold clock_period, u16_modulus; lia]. }
  generalize dependent (Z.to_nat (clock_period - 1)%Z). intros n Hn.
  rewrite ticks_S, (ticks_at_max n Hn). split; reflexivity.
Qed.

(* ------------------------------------------------------------------ *)
(** ** C2: one day of ticks *)

(** C2: 86400 ticks of [counter] from [Time::new] give
    [{second: 0, minute: 0, hour: 0, days: 1}]. *)
Theorem C2_one_day : ticks (Z.to_nat 86400) Time_new = mkTime 0 0 0 1.
Proof.
  apply valid_total_inj; [apply ticks_valid| |].
  - unfold time_valid, u16_modulus; cbn; lia.
  - rewrite ticks_total, Z2Nat.id by lia. reflexivity.
Qed.

(* ------------------------------------------------------------------ *)
(** ** C3: the registry invariant *)

(** C3: [State::new] builds a registry with [1 <= len <= 8] and
    [selected_timer < len], and [add_timer], [remove_timer],
    [next_timer] and [set_label] each preserve that invariant (neither
    [remove_timer] nor [set_label] panics on such a registry). *)
Theorem C3_registry_invariant (s : State) (w : World) :
  (forall (args : list string) (w0 : World), registry_ok (fst (State_new args w0))) /\
  (registry_ok s ->
   registry_ok (fst (add_timer s w)) /\
   (exists s' w', remove_timer s w = Some (s', w') /\ registry_ok s') /\
   registry_ok (next_timer s) /\
   (exists s', set_label s = Some s' /\ registry_ok s')).
Proof.
  split.
  { intros args w0. unfold State_new, Timer_new, alloc, registry_ok, CAPACITY.
    cbn. lia. }
  intros [Hlen Hsel].
  destruct (lookup_lt_is_Some_2 (timers s) (selected_timer s) Hsel) as [t Ht].
  split; [|split; [|split]].
  - destruct (Nat.ltb_spec (length (timers s)) CAPACITY) as [Hl|Hl].
    + rewrite add_timer_eq by exact Hl. unfold registry_ok; cbn.
      rewrite length_app; cbn. lia.
    + rewrite add_timer_full by exact Hl. by split.
  - destruct (Nat.ltb_spec 1 (length (timers s))) as [Hl|Hl].
    + rewrite (remove_timer_eq s w t Hl Ht). do 2 eexists. split; [reflexivity|].
      unfold registry_ok; cbn. rewrite length_delete by eauto. lia.
    + rewrite remove_timer_single by lia. do 2 eexists. by split.
  - unfold registry_ok. rewrite next_timer_timers, next_timer_selected.
    + split; [lia|]. apply Nat.mod_upper_bound. lia.
    + intros E. rewrite E in Hlen. cbn in Hlen. lia.
  - rewrite (set_label_eq s t Ht). eexists. split; [reflexivity|].
    unfold registry_ok; cbn. rewrite length_insert. lia.
Qed.

Lemma C3_witness :
  registry_ok three_timers /\
  registry_ok (fst (add_timer three_timers three_timers_world)) /\
  (exists s' w', remove_timer three_timers three_timers_world = Some (s', w') /\
                 registry_ok s') /\
  registry_ok (next_timer three_timers) /\
  (exists s', set_label three_timers = Some s' /\ registry_ok s').
Proof.
  assert (H : registry_ok three_timers)
    by (unfold registry_ok, CAPACITY; cbn; lia).
  split; [exact H|].
  exact (proj2 (C3_registry_invariant three_timers three_timers_world) H).
Defined.

(* ------------------------------------------------------------------ *)
(** ** C4: [add_timer] *)

(** C4: below capacity ([len < 8]) [add_timer] appends a fresh timer
    (unlabelled, no task yet, a new clock at [Time::new]) and selects the
    new last index; at capacity ([len = 8]) it changes nothing. *)
Theorem C4_add_timer (s : State) (w : World) :
  (length (timers s) < CAPACITY ->
     let '(s', w') := add_timer s w in
     timers s' = timers s ++ [mkTimer (length (heap w)) None None] /\
     heap w' !! length (heap w) = Some Time_new /\
     selected_timer s' = length (timers s') - 1) /\
  (length (timers s) = CAPACITY -> add_timer s w = (s, w)).
Proof.
  split.
  - intros Hl. rewrite add_timer_eq by exact Hl. cbn.
    split; [reflexivity|]. split; [|reflexivity].
    rewrite lookup_app_r by lia. rewrite Nat.sub_diag. reflexivity.
  - intros Hl. apply add_timer_full. lia.
Qed.

Lemma C4_witness :
  length (timers three_timers) < CAPACITY /\
  (let '(s', w') := add_timer three_timers three_timers_world in
   timers s' = timers three_timers ++ [mkTimer (length (heap three_timers_world)) None None] /\
   heap w' !! length (heap three_timers_world) = Some Time_new /\
   selected_timer s' = length (timers s') - 1).
Proof.
  assert (H : length (timers three_timers) < CAPACITY) by (unfold CAPACITY; cbn; lia).
  split; [exact H|].
  exact (proj1 (C4_add_timer three_timers three_timers_world) H).
Defined.

(* ------------------------------------------------------------------ *)
(** ** C5: [remove_timer] *)

(** C5: with more than one timer (and [selected_timer] in range),
    [remove_timer] removes the selected slot and sets [selected_timer] to
    [min(selected_timer, new_len - 1)], the rest of [State] unchanged;
    with exactly one timer it changes nothing at all. *)
Theorem C5_remove_timer (s : State) (w : World) :
  (1 < length (timers s) -> selected_timer s < length (timers s) ->
   exists w', remove_timer s w =
     Some (let ts := delete (selected_timer s) (timers s) in
           set_selected (Nat.min (selected_timer s) (length ts - 1)) (set_timers ts s), w')) /\
  (length (timers s) = 1 -> remove_timer s w = Some (s, w)).
Proof.
  split.
  - intros Hl Hsel.
    destruct (lookup_lt_is_Some_2 (timers s) (selected_timer s) Hsel) as [t Ht].
    rewrite (remove_timer_eq s w t Hl Ht). eexists. reflexivity.
  - apply remove_timer_single.
Qed.

Lemma C5_witness :
  1 < length (timers three_timers) /\
  selected_timer three_timers < length (timers three_timers) /\
  exists w', remove_timer three_timers three_timers_world =
     Some (let ts := delete (selected_timer three_timers) (timers three_timers) in
           set_selected (Nat.min (selected_timer three_timers) (length ts - 1))
             (set_timers ts three_timers), w').
Proof.
  assert (H1 : 1 < length (timers three_timers)) by (cbn; lia).
  assert (H2 : selected_timer three_timers < length (timers three_timers)) by (cbn; lia).
  split; [exact H1|]. split; [exact H2|].
  exact (proj1 (C5_remove_timer three_timers three_timers_world) H1 H2).
Defined.

(* ------------------------------------------------------------------ *)
(** ** C6: removal compacts and leaves the other clocks alone *)

(** C6: when [remove_timer] removes the selected slot of a registry with
    more than one timer and a slot after the selected one, the slot that
    was at [selected_timer + 1] is now at [selected_timer], and every
    remaining slot reads the same [Time] as the slot it came from: slots
    below the removed index keep their index, the others shift down by
    one, and no clock in the heap is touched. *)
Theorem C6_remove_shifts_and_keeps_clocks (s s' : State) (w w' : World) :
  1 < length (timers s) -> selected_timer s + 1 < length (timers s) ->
  remove_timer s w = Some (s', w') ->
  timers s' !! selected_timer s = timers s !! (selected_timer s + 1) /\
  clock_of s' w' (selected_timer s) = clock_of s w (selected_timer s + 1) /\
  (forall i, i < selected_timer s -> clock_of s' w' i = clock_of s w i) /\
  (forall i, selected_timer s <= i -> clock_of s' w' i = clock_of s w (S i)).
Proof.
  intros Hl Hnl H.
  destruct (lookup_lt_is_Some_2 (timers s) (selected_timer s) ltac:(lia)) as [t Ht].
  rewrite (remove_timer_eq s w t Hl Ht) in H. injection H as <- <-.
  assert (Hh : heap (match task_handle t with Some h => abort h w | None => w end) = heap w)
    by (by destruct (task_handle t)).
  unfold clock_of. cbn. rewrite Hh.
  split; [|split; [|split]].
  - rewrite list_lookup_delete_ge by lia. f_equal. lia.
  - rewrite list_lookup_delete_ge by lia. do 2 f_equal. lia.
  - intros i Hi. by rewrite list_lookup_delete_lt.
  - intros i Hi. by rewrite list_lookup_delete_ge.
Qed.

Lemma C6_witness :
  exists s' w',
    1 < length (timers (set_selected 1 three_timers)) /\
    selected_timer (set_selected 1 three_timers) + 1 < length (timers (set_selected 1 three_timers)) /\
    remove_timer (set_selected 1 three_timers) three_timers_world = Some (s', w') /\
    timers s' !! 1 = timers three_timers !! 2 /\
    clock_of s' w' 1 = clock_of three_timers three_timers_world 2 /\
    (forall i, i < 1 -> clock_of s' w' i = clock_of three_timers three_timers_world i) /\
    (forall i, 1 <= i -> clock_of s' w' i = clock_of three_timers three_timers_world (S i)).
Proof.
  do 2 eexists.
  assert (H1 : 1 < length (timers (set_selected 1 three_timers))) by (cbn; lia).
  assert (H2 : selected_timer (set_selected 1 three_timers) + 1 <
               length (timers (set_selected 1 three_timers))) by (cbn; lia).
  assert (H3 : remove_timer (set_selected 1 three_timers) three_timers_world =
               Some (let ts := delete 1 (timers three_timers) in
                     set_selected (Nat.min 1 (length ts - 1)) (set_timers ts (set_selected 1 three_timers)),
                     abort 1 three_timers_world)) by reflexivity.
  split; [exact H1|]. split; [exact H2|]. split; [exact H3|].
  exact (C6_remove_shifts_and_keeps_clocks (set_selected 1 three_timers) _ _ _ H1 H2 H3).
Defined.

(* ------------------------------------------------------------------ *)
(** ** C7: [next_timer] is circular *)

(** C7: for a registry whose [selected_timer] is in range, [len]
    applications of [next_timer] bring [selected_timer] back to its
    start, and every number of applications keeps it in [0, len). *)
Theorem C7_next_timer_cycle (s : State) :
  selected_timer s < length (timers s) ->
  selected_timer (Nat.iter (length (timers s)) next_timer s) = selected_timer s /\
  (forall k, selected_timer (Nat.iter k next_timer s) < length (timers s)).
Proof.
  intros Hs. split.
  - rewrite iter_next_timer_selected by exact Hs.
    rewrite <- (Nat.mul_1_l (length (timers s))) at 1.
    rewrite Nat.Div0.mod_add. apply Nat.mod_small. exact Hs.
  - intros k. rewrite iter_next_timer_selected by exact Hs.
    apply Nat.mod_upper_bound. lia.
Qed.

Lemma C7_witness :
  selected_timer (set_selected 2 three_timers) < length (timers (set_selected 2 three_timers)) /\
  selected_timer (Nat.iter (length (timers (set_selected 2 three_timers))) next_timer
                    (set_selected 2 three_timers)) = selected_timer (set_selected 2 three_timers) /\
  (forall k, selected_timer (Nat.iter k next_timer (set_selected 2 three_timers)) <
             length (timers (set_selected 2 three_timers))).
Proof.
  assert (H : selected_timer (set_selected 2 three_timers) <
              length (timers (set_selected 2 three_timers))) by (cbn; lia).
  split; [exact H|]. exact (C7_next_timer_cycle _ H).
Defined.

(* ------------------------------------------------------------------ *)
(** ** C8: there is no [select_previous] *)

(** C8 counterexample: [impl State] has no [select_previous] and no key
    of the main loop moves the selection backward: from three timers with
    timer 0 selected, no key event yields the state that
    [select_previous] would give (timer 2 selected, all else equal). *)
Lemma C8_no_select_previous :
  ~ exists (k : KeyEvent) (w' : World),
      handle_key k three_timers three_timers_world =
      Some (Continue (select_previous_spec three_timers) w').
Proof.
  intros (k & w' & H).
  apply handle_key_selection in H; [|unfold registry_ok, CAPACITY; cbn; lia|reflexivity].
  cbn in H. lia.
Qed.

(** C8 (as amended): the engine offers no [select_previous]; on a
    registry satisfying the invariant, a key event that does not change
    the number of timers either keeps [selected_timer] or advances it
    circularly by one ([next_timer], the [Tab] key). *)
Theorem C8_selection_only_forward (k : KeyEvent) (s s' : State) (w w' : World) :
  registry_ok s -> handle_key k s w = Some (Continue s' w') ->
  length (timers s') = length (timers s) ->
  selected_timer s' = selected_timer s \/
  selected_timer s' = Nat.modulo (selected_timer s + 1) (length (timers s)).
Proof. apply handle_key_selection. Qed.

Lemma C8_witness :
  registry_ok three_timers /\
  handle_key (mkKey Tab false) three_timers three_timers_world =
    Some (Continue (next_timer three_timers) three_timers_world) /\
  length (timers (next_timer three_timers)) = length (timers three_timers) /\
  (selected_timer (next_timer three_timers) = selected_timer three_timers \/
   selected_timer (next_timer three_timers) =
     Nat.modulo (selected_timer three_timers + 1) (length (timers three_timers))).
Proof.
  assert (H1 : registry_ok three_timers) by (unfold registry_ok, CAPACITY; cbn; lia).
  assert (H2 : handle_key (mkKey Tab false) three_timers three_timers_world =
               Some (Continue (next_timer three_timers) three_timers_world)) by reflexivity.
  assert (H3 : length (timers (next_timer three_timers)) = length (timers three_timers))
    by reflexivity.
  split; [exact H1|]. split; [exact H2|]. split; [exact H3|].
  exact (C8_selection_only_forward _ _ _ _ _ H1 H2 H3).
Defined.

(* ------------------------------------------------------------------ *)
(** ** C9: the startup argument *)

(** C9 counterexample: two arguments after the program name are no usage
    error: [main] builds the registry, with one unlabelled timer whose
    counter task is running. *)
Lemma C9_extra_args_accepted :
  startup ["stopwatch"; "a"; "b"]%string =
    (mkState [mkTimer 0 None (Some 0)] 0 50%Z false EmptyString true,
     mkWorld [Time_new] [mkTask 0 false]).
Proof. reflexivity. Qed.

(** C9 (as amended): startup never fails on the argument count; the one
    initial timer is labelled with the argument when exactly one argument
    follows the program name, and unlabelled otherwise (none, or more
    than one, which are ignored). *)
Theorem C9_startup_label (args : list string) :
  fst (startup args) =
    mkState [mkTimer 0 (if Nat.eqb (length args) 2 then nth_error args 1 else None) (Some 0)]
      0 50%Z false EmptyString true.
Proof. reflexivity. Qed.

(* ------------------------------------------------------------------ *)
(** ** C10: [set_label] *)

(** C10: on a registry whose selected slot exists, [set_label] stores
    [None] for an empty input buffer and [Some buffer] otherwise (so never
    [Some ""]), keeps that slot's clock, clears the buffer and leaves
    input mode. *)
Theorem C10_set_label (s : State) (t : Timer) :
  timers s !! selected_timer s = Some t ->
  exists s' t', set_label s = Some s' /\ timers s' !! selected_timer s = Some t' /\
    (input_buffer s = EmptyString -> label t' = None) /\
    (input_buffer s <> EmptyString -> label t' = Some (input_buffer s)) /\
    label t' <> Some EmptyString /\
    timer_state t' = timer_state t /\
    input_buffer s' = EmptyString /\ input_mode s' = false.
Proof.
  intros Ht. rewrite (set_label_eq s t Ht).
  do 2 eexists. split; [reflexivity|].
  split; [cbn; apply list_lookup_insert_eq; exact (lookup_lt_Some _ _ _ Ht)|].
  cbn. destruct (String.eqb_spec (input_buffer s) EmptyString) as [E|E].
  - split; [done|]. split; [done|]. split; [discriminate|]. done.
  - split; [done|]. split; [done|]. split; [|done].
    intros H. injection H. exact E.
Qed.

Lemma C10_witness :
  let s := set_input true "lap"%string three_timers in
  timers s !! selected_timer s = Some (mkTimer 0 None (Some 0)) /\
  exists s' t', set_label s = Some s' /\ timers s' !! selected_timer s = Some t' /\
    (input_buffer s = EmptyString -> label t' = None) /\
    (input_buffer s <> EmptyString -> label t' = Some (input_buffer s)) /\
    label t' <> Some EmptyString /\
    timer_state t' = timer_state (mkTimer 0 None (Some 0)) /\
    input_buffer s' = EmptyString /\ input_mode s' = false.
Proof.
  intros s.
  assert (H : timers s !! selected_timer s = Some (mkTimer 0 None (Some 0))) by reflexivity.
  split; [exact H|]. exact (C10_set_label s _ H).
Defined.

(* ================================================================== *)
(** * Further properties of main.rs *)

(* ------------------------------------------------------------------ *)
(** ** Geometry of the help box and of the quit prompt *)

Module GeometryFacts.
Local Open Scope Z_scope.

Lemma help_area_fits (area : Rect) :
  0 <= rect_width area -> 0 <= rect_height area ->
  rect_x area = 0 -> rect_y area = 0 ->
  rect_width (help_area area) <= rect_width area /\
  rect_height (help_area area) <= rect_height area /\
  (rect_within (help_area area) area <-> rect_width area <= 171 /\ rect_height area <= 41).
Proof.
  destruct area as [x y w h]; unfold help_area, rect_within, u16_saturating_sub; cbn.
  intros Hw Hh -> ->.
  pose proof (Z.div_mod w 4 ltac:(lia)). pose proof (Z.mod_pos_bound w 4 ltac:(lia)).
  pose proof (Z.div_mod h 3 ltac:(lia)). pose proof (Z.mod_pos_bound h 3 ltac:(lia)).
  lia.
Qed.

Lemma confirmation_area_centered (area : Rect) :
  0 <= rect_width area < u16_modulus -> 0 <= rect_height area < u16_modulus ->
  rect_x area = 0 -> rect_y area = 0 ->
  rect_within (confirmation_area area) area /\
  0 <= (rect_width area - (rect_x (confirmation_area area) + rect_width (confirmation_area area)))
       - rect_x (confirmation_area area) <= 1 /\
  0 <= (rect_height area - (rect_y (confirmation_area area) + rect_height (confirmation_area area)))
       - rect_y (confirmation_area area) <= 1.
Proof.
  destruct area as [x y w h]; unfold confirmation_area, rect_within, u16_sub; cbn.
  unfold u16_modulus. intros Hw Hh -> ->.
  pose proof (Z.div_mod w 2 ltac:(lia)). pose proof (Z.mod_pos_bound w 2 ltac:(lia)).
  pose proof (Z.div_mod h 4 ltac:(lia)). pose proof (Z.mod_pos_bound h 4 ltac:(lia)).
  rewrite !Z.mod_small by lia.
  pose proof (Z.div_mod (w - w / 2) 2 ltac:(lia)).
  pose proof (Z.mod_pos_bound (w - w / 2) 2 ltac:(lia)).
  pose proof (Z.div_mod (h - h / 4) 2 ltac:(lia)).
  pose proof (Z.mod_pos_bound (h - h / 4) 2 ltac:(lia)).
  lia.
Qed.


End GeometryFacts.

(* ------------------------------------------------------------------ *)
(** ** The arms of the key dispatch *)

Module KeyFacts.



Ltac pick :=
  solve [ reflexivity | assumption
        | left; pick | right; pick | split; pick | eexists; pick ].


End KeyFacts.

(* ------------------------------------------------------------------ *)
(** ** Invariants of the main loop *)

Module LoopFacts.
Import KeyFacts.






End LoopFacts.

(* ------------------------------------------------------------------ *)
(** ** Every timer keeps a live counter task on its own clock *)

Module WorldFacts.
Import KeyFacts.





Lemma remove_timer_world_ok (s s' : State) (w w' : World) :
  remove_timer s w = Some (s', w') -> world_ok s w -> world_ok s' w'.
Proof.
  unfold remove_timer. destruct (Nat.ltb 1 (length (timers s))).
  2:{ intros H; by injection H as <- <-. }
  destruct (timers s !! selected_timer s) as [t|] eqn:Ht; [|discriminate].
  intros H Hok. pose proof Hok as [Hlive Hdist].
  destruct (Hlive _ _ Ht) as (_ & h & Hh & Htk). rewrite Hh in H.
  assert (Hs' : timers s' = delete (selected_timer s) (timers s))
    by (destruct (Nat.leb _ _); by injection H as <- <-).
  assert (Hw' : w' = abort h w) by (destruct (Nat.leb _ _); by injection H as <- <-).
  subst w'. clear H.
  assert (Hmap : forall i t', timers s' !! i = Some t' ->
            timers s !! (if decide (i < selected_timer s) then i else S i) = Some t')
    by (intros i t'; rewrite Hs', list_lookup_delete; auto).
  split.
  - intros i t' Ht'. apply Hmap in Ht'.
    destruct (Hlive _ _ Ht') as (Hl & h' & Hh' & Htk').
    split; [exact Hl|]. exists h'. split; [exact Hh'|]. cbn.
    rewrite list_lookup_alter_ne; [exact Htk'|].
    intros ->. rewrite Htk in Htk'. injection Htk' as Hst.
    pose proof (Hdist _ _ _ _ Ht Ht' Hst). case_decide; lia.
  - intros i j ti tj Hi Hj Heq. apply Hmap in Hi, Hj.
    pose proof (Hdist _ _ _ _ Hi Hj Heq). do 2 case_decide; lia.
Qed.

Lemma task_tick_world_ok (i : nat) (s : State) (w : World) :
  world_ok s w -> world_ok s (task_tick i w).
Proof.
  unfold task_tick.
  destruct (tasks w !! i) as [tk|]; [|done].
  destruct (task_aborted tk); [done|].
  destruct (heap w !! task_loc tk); [|done].
  intros [Hlive Hdist]. split; [|exact Hdist].
  intros j t0 Ht. cbn. rewrite length_insert. apply (Hlive j t0 Ht).
Qed.


Lemma handle_key_confirm (k : KeyEvent) (s s' : State) (w w' : World) :
  handle_key k s w = Some (ConfirmQuit s' w') ->
  s' = s /\ w' = w /\ input_mode s = false /\ code k = Char "q"%char /\ ctrl k = true.
Proof.
  intros H. unfold handle_key in H.
  destruct (input_mode s); destruct (code k) as [| | | | | |c|] eqn:Ec.
  all: repeat match type of H with context [if ?b then _ else _] => destruct b eqn:? end.
  all: try discriminate H.
  all: try (destruct (set_label s); discriminate H).
  all: try (destruct (add_timer_and_spawn s w) as [[? ?]|]; discriminate H).
  all: try (destruct (remove_timer s w) as [[? ?]|]; discriminate H).
  injection H as <- <-. apply andb_true_iff in Heqb as [Hq Hc].
  apply Ascii.eqb_eq in Hq. subst c. done.
Qed.

End WorldFacts.

(* ------------------------------------------------------------------ *)
(** ** No panics: key dispatch, snapshot, layout and frame *)

Module FrameFacts.
Import KeyFacts.





Lemma pick_ok (chunks : list Rect) (idx : list nat) :
  Forall (fun i => i < length chunks) idx ->
  exists l, pick chunks idx = Some l /\ length l = length idx.
Proof.
  induction 1 as [|i idx Hi _ IH]; [by exists []|].
  destruct IH as [l [Hl Hlen]].
  destruct (lookup_lt_is_Some_2 chunks i Hi) as [r Hr].
  exists (r :: l). unfold pick in *. cbn. rewrite Hr. cbn. rewrite Hl. cbn. by rewrite Hlen.
Qed.

Section Layout.
Variable split : Direction -> list Constraint -> Rect -> list Rect.
(** [Layout::split] returns one [Rect] per constraint. *)
Hypothesis split_length : forall d cs r, length (split d cs r) = length cs.

Lemma two_rows_ok (area : Rect) (top bottom : list Constraint) (ti bi : list nat) :
  Forall (fun i => i < length top) ti -> Forall (fun i => i < length bottom) bi ->
  exists l,
    (r0 ← split Vertical halves area !! 0; r1 ← split Vertical halves area !! 1;
     a ← pick (split Horizontal top r0) ti;
     b ← pick (split Horizontal bottom r1) bi; Some (a ++ b)) = Some l /\
    length l = length ti + length bi.
Proof.
  intros Hti Hbi.
  destruct (lookup_lt_is_Some_2 (split Vertical halves area) 0) as [r0 E0];
    [rewrite split_length; cbn; lia|].
  destruct (lookup_lt_is_Some_2 (split Vertical halves area) 1) as [r1 E1];
    [rewrite split_length; cbn; lia|].
  rewrite E0, E1. cbn.
  destruct (pick_ok (split Horizontal top r0) ti) as [a [Ha Hla]];
    [rewrite split_length; exact Hti|].
  destruct (pick_ok (split Horizontal bottom r1) bi) as [b [Hb Hlb]];
    [rewrite split_length; exact Hbi|].
  rewrite Ha. cbn. rewrite Hb. cbn. exists (a ++ b). split; [reflexivity|].
  rewrite length_app. lia.
Qed.

Lemma get_layout_areas_ok (area : Rect) (n : nat) :
  exists areas, get_layout_areas split area n = Some areas /\
    length areas = (if (1 <=? n) && (n <=? CAPACITY) then n else 1).
Proof.
  unfold get_layout_areas.
  destruct n as [|[|[|[|[|[|[|[|[|n]]]]]]]]].
  all: try (eexists; split; [reflexivity|reflexivity]).
  all: first [ apply pick_ok; rewrite split_length; repeat constructor; cbn; lia
             | apply two_rows_ok; repeat constructor; cbn; lia ].
Qed.

End Layout.

End FrameFacts.

(* ------------------------------------------------------------------ *)
(** ** One frame of the main loop *)

Module DrawFacts.
Import FrameFacts.


Section Frame.
Variable split : Direction -> list Constraint -> Rect -> list Rect.
Hypothesis split_length : forall d cs r, length (split d cs r) = length cs.


End Frame.

End DrawFacts.

(* ------------------------------------------------------------------ *)
(** ** Counter tasks and the clocks they advance *)

Module TickFacts.
Import WorldFacts.

Lemma task_tick_clock (s : State) (w : World) (i h : nat) (t : Timer) :
  world_ok s w -> timers s !! i = Some t -> task_handle t = Some h ->
  clock_of s (task_tick h w) i = advance <$> clock_of s w i /\
  forall j, j <> i -> clock_of s (task_tick h w) j = clock_of s w j.
Proof.
  intros [Hlive Hdist] Ht Hh.
  destruct (Hlive i t Ht) as (Hl & h' & Hh' & Htk). rewrite Hh in Hh'.
  injection Hh' as <-.
  destruct (lookup_lt_is_Some_2 (heap w) (timer_state t) Hl) as [x Hx].
  unfold task_tick. rewrite Htk. cbn. rewrite Hx.
  unfold clock_of. cbn. rewrite Ht. cbn. rewrite Hx. split.
  - by rewrite list_lookup_insert_eq.
  - intros j Hj. destruct (timers s !! j) as [tj|] eqn:Etj; cbn; [|reflexivity].
    rewrite list_lookup_insert_ne; [reflexivity|].
    intros Heq. apply Hj. exact (Hdist _ _ _ _ Etj Ht (eq_sym Heq)).
Qed.

Lemma task_ticks_clock (n : nat) (s : State) (w : World) (i h : nat) (t : Timer) :
  world_ok s w -> timers s !! i = Some t -> task_handle t = Some h ->
  clock_of s (Nat.iter n (task_tick h) w) i = ticks n <$> clock_of s w i /\
  forall j, j <> i -> clock_of s (Nat.iter n (task_tick h) w) j = clock_of s w j.
Proof.
  intros Hok Ht Hh. induction n as [|n [IHi IHj]].
  - change (Nat.iter 0 (task_tick h) w) with w.
    split; [by destruct (clock_of s w i)|intros; reflexivity].
  - assert (Hokn : world_ok s (Nat.iter n (task_tick h) w)).
    { clear IHi IHj. induction n as [|n IH]; [exact Hok|].
      rewrite Nat.iter_succ. by apply task_tick_world_ok. }
    destruct (task_tick_clock _ _ i h t Hokn Ht Hh) as [Hi Hj].
    rewrite Nat.iter_succ. split.
    + rewrite Hi, IHi. by destruct (clock_of s w i).
    + intros j Hji. rewrite Hj by exact Hji. exact (IHj j Hji).
Qed.

Lemma remove_timer_aborts (s s' : State) (w w' : World) (t : Timer) (h : nat) :
  world_ok s w -> 1 < length (timers s) ->
  timers s !! selected_timer s = Some t -> task_handle t = Some h ->
  remove_timer s w = Some (s', w') ->
  task_tick h w' = w' /\ forall i t', timers s' !! i = Some t' -> task_handle t' <> Some h.
Proof.
  intros Hok Hl Ht Hh Hrm.
  pose proof (remove_timer_world_ok _ _ _ _ Hrm Hok) as [Hlive' _].
  destruct Hok as [Hlive _].
  destruct (Hlive _ _ Ht) as (_ & h0 & Hh0 & Htk). rewrite Hh in Hh0. injection Hh0 as <-.
  rewrite (remove_timer_eq s w t Hl Ht), Hh in Hrm. injection Hrm as <- <-.
  assert (Ha : tasks (abort h w) !! h = Some (mkTask (timer_state t) true))
    by (cbn; rewrite list_lookup_alter_eq, Htk; reflexivity).
  split.
  - unfold task_tick. rewrite Ha. reflexivity.
  - intros i t' Ht' Hh'. destruct (Hlive' i t' Ht') as (_ & h' & Hh'' & Htk').
    rewrite Hh' in Hh''. injection Hh'' as <-. rewrite Ha in Htk'. discriminate.
Qed.

End TickFacts.

(* ------------------------------------------------------------------ *)
(** ** Input mode, the quit confirmation and the clock's closed form *)

Module InputFacts.
Import WorldFacts.

Lemma string_push_length (buf : string) (c : Ascii.ascii) :
  String.length (string_push buf c) = S (String.length buf).
Proof. induction buf as [|a buf IH]; cbn; [reflexivity|]. by rewrite <- IH. Qed.

Lemma substring_push (buf : string) (c : Ascii.ascii) :
  String.substring 0 (String.length buf) (string_push buf c) = buf.
Proof.
  induction buf as [|a buf IH]; [reflexivity|].
  change (string_push (String a buf) c) with (String a (string_push buf c)).
  cbn. by rewrite IH.
Qed.

Lemma string_pop_push (buf : string) (c : Ascii.ascii) :
  string_pop (string_push buf c) = buf.
Proof.
  unfold string_pop. rewrite string_push_length, Nat.sub_1_r, Nat.pred_succ.
  apply substring_push.
Qed.

Lemma input_mode_keys (k : KeyEvent) (s s' : State) (w w' : World) :
  input_mode s = true -> handle_key k s w = Some (Continue s' w') ->
  w' = w /\ selected_timer s' = selected_timer s /\
  ui_update_rate_ms s' = ui_update_rate_ms s /\ show_help s' = show_help s /\
  length (timers s') = length (timers s) /\
  forall i t', timers s' !! i = Some t' ->
    exists t0, timers s !! i = Some t0 /\ timer_state t' = timer_state t0 /\
               task_handle t' = task_handle t0.
Proof.
  intros Hm H. unfold handle_key in H. rewrite Hm in H.
  destruct (code k).
  all: try (injection H as <- <-; cbn; repeat split; eauto; fail).
  unfold set_label in H.
  destruct (timers s !! selected_timer s) as [t|] eqn:Ht; [|discriminate].
  injection H as <- <-. cbn. rewrite length_insert. repeat split.
  intros i t' Ht'. destruct (decide (i = selected_timer s)) as [->|Hne].
  - rewrite list_lookup_insert_eq in Ht' by exact (lookup_lt_Some _ _ _ Ht).
    injection Ht' as <-. eauto.
  - rewrite list_lookup_insert_ne in Ht' by congruence. eauto.
Qed.

Lemma input_mode_no_quit (k : KeyEvent) (s s' : State) (w w' : World) :
  input_mode s = true -> handle_key k s w <> Some (ConfirmQuit s' w').
Proof.
  intros Hm H. destruct (handle_key_confirm _ _ _ _ _ H) as (_ & _ & Hm' & _).
  congruence.
Qed.

Lemma confirm_loop_spec (ks : list KeyCode) (b : bool) :
  confirm_loop ks = Some b <->
  exists pre rest, ks = pre ++ Char (if b then "y" else "n")%char :: rest /\
    Forall (fun k => k <> Char "y"%char /\ k <> Char "n"%char) pre.
Proof.
  split.
  - induction ks as [|k ks IH]; cbn; [discriminate|].
    assert (Hrec : confirm_loop ks = Some b ->
                   k <> Char "y"%char /\ k <> Char "n"%char ->
                   exists pre rest, k :: ks = pre ++ Char (if b then "y" else "n")%char :: rest /\
                     Forall (fun k => k <> Char "y"%char /\ k <> Char "n"%char) pre).
    { intros H Hk. destruct (IH H) as (pre & rest & -> & HF).
      exists (k :: pre), rest. split; [reflexivity|]. by constructor. }
    destruct k as [| | | | | |c|];
      try (intros H; apply Hrec; [exact H|split; discriminate]).
    destruct (Ascii.eqb_spec c "y"%char) as [->|Hy].
    { intros [= <-]. exists [], ks. split; [reflexivity|constructor]. }
    destruct (Ascii.eqb_spec c "n"%char) as [->|Hn].
    { intros [= <-]. exists [], ks. split; [reflexivity|constructor]. }
    intros H. apply Hrec; [exact H|split; congruence].
  - intros (pre & rest & -> & HF). induction HF as [|k pre [Hy Hn] HF IH].
    + by destruct b.
    + cbn. destruct k as [| | | | | |c|]; try exact IH.
      destruct (Ascii.eqb_spec c "y"%char) as [->|_]; [done|].
      destruct (Ascii.eqb_spec c "n"%char) as [->|_]; [done|exact IH].
Qed.

End InputFacts.

Module ClockForm.
Import ClockFacts.
Local Open Scope Z_scope.

Lemma ticks_closed_form (n : nat) :
  ticks n Time_new =
    mkTime (Z.of_nat n mod 60) ((Z.of_nat n / 60) mod 60) ((Z.of_nat n / 3600) mod 24)
           ((Z.of_nat n / 86400) mod 65536).
Proof.
  apply valid_total_inj; [apply ticks_valid| |].
  - unfold time_valid, u16_modulus; cbn.
    pose proof (Z.mod_pos_bound (Z.of_nat n) 60 ltac:(lia)).
    pose proof (Z.mod_pos_bound (Z.of_nat n / 60) 60 ltac:(lia)).
    pose proof (Z.mod_pos_bound (Z.of_nat n / 3600) 24 ltac:(lia)).
    pose proof (Z.mod_pos_bound (Z.of_nat n / 86400) 65536 ltac:(lia)).
    lia.
  - rewrite ticks_total. unfold total_seconds, clock_period, u16_modulus; cbn.
    set (a := Z.of_nat n). assert (Ha : 0 <= a) by lia.
    assert (E1 : a / 3600 = (a / 60) / 60) by (rewrite Z.div_div by lia; reflexivity).
    assert (E2 : a / 86400 = (a / 3600) / 24) by (rewrite Z.div_div by lia; reflexivity).
    assert (E3 : a / (86400 * 65536) = (a / 86400) / 65536)
      by (rewrite Z.div_div by lia; reflexivity).
    rewrite !Z.mod_eq by lia. rewrite E3, E2, E1.
    pose proof (Z.div_mod a 60 ltac:(lia)).
    pose proof (Z.div_mod (a / 60) 60 ltac:(lia)).
    pose proof (Z.div_mod (a / 60 / 60) 24 ltac:(lia)).
    pose proof (Z.div_mod (a / 60 / 60 / 24) 65536 ltac:(lia)).
    lia.
Qed.

End ClockForm.

(* ------------------------------------------------------------------ *)
(** ** What every state of the main loop satisfies *)

Module ReachFacts.
Import ClockFacts KeyFacts LoopFacts WorldFacts.





End ReachFacts.

Module ExampleFacts.

Lemma three_timers_world_ok : world_ok three_timers three_timers_world.
Proof.
  split.
  - intros i t Ht. destruct i as [|[|[|i]]]; cbn in Ht; try discriminate;
      injection Ht as <-; cbn; (split; [lia|eexists; split; reflexivity]).
  - intros i j ti tj Hi Hj Heq.
    destruct i as [|[|[|i]]]; cbn in Hi; try discriminate; injection Hi as <-;
    destruct j as [|[|[|j]]]; cbn in Hj; try discriminate; injection Hj as <-;
    cbn in Heq; lia.
Qed.


End ExampleFacts.

(* ================================================================== *)
(** * Further properties of [main.rs] *)

Section Extras.
Import ClockFacts RegistryFacts GeometryFacts KeyFacts LoopFacts WorldFacts FrameFacts
  DrawFacts TickFacts InputFacts ClockForm ReachFacts ExampleFacts.









(** X5: the help box of [draw_help] is never wider or taller than the
    terminal area, and it lies inside the area exactly when the area is
    at most 171 columns wide and 41 rows high (its corner is placed at
    [width - 42, height - 13] while its size grows with the area). *)
Theorem X5_help_area_bounds (area : Rect) :
  (0 <= rect_width area)%Z -> (0 <= rect_height area)%Z ->
  rect_x area = 0%Z -> rect_y area = 0%Z ->
  (rect_width (help_area area) <= rect_width area)%Z /\
  (rect_height (help_area area) <= rect_height area)%Z /\
  (rect_within (help_area area) area <->
     (rect_width area <= 171)%Z /\ (rect_height area <= 41)%Z).
Proof. apply help_area_fits. Qed.

Lemma X5_witness :
  (rect_width (help_area (mkRect 0 0 200 50)) <= 200)%Z /\
  (rect_height (help_area (mkRect 0 0 200 50)) <= 50)%Z /\
  (rect_within (help_area (mkRect 0 0 200 50)) (mkRect 0 0 200 50) <->
     (200 <= 171)%Z /\ (50 <= 41)%Z).
Proof.
  apply (X5_help_area_bounds (mkRect 0 0 200 50)); cbn; [lia|lia|reflexivity|reflexivity].
Defined.

(** X6: the quit confirmation prompt of [draw_confirmation_prompt] lies
    inside the terminal area and is centred: on each axis the margin
    after it exceeds the margin before it by 0 or 1. *)
Theorem X6_confirmation_centered (area : Rect) :
  (0 <= rect_width area < u16_modulus)%Z -> (0 <= rect_height area < u16_modulus)%Z ->
  rect_x area = 0%Z -> rect_y area = 0%Z ->
  rect_within (confirmation_area area) area /\
  (0 <= (rect_width area - (rect_x (confirmation_area area) + rect_width (confirmation_area area)))
        - rect_x (confirmation_area area) <= 1)%Z /\
  (0 <= (rect_height area - (rect_y (confirmation_area area) + rect_height (confirmation_area area)))
        - rect_y (confirmation_area area) <= 1)%Z.
Proof. apply confirmation_area_centered. Qed.

Lemma X6_witness :
  rect_within (confirmation_area (mkRect 0 0 81 25)) (mkRect 0 0 81 25) /\
  (0 <= (81 - (rect_x (confirmation_area (mkRect 0 0 81 25)) +
               rect_width (confirmation_area (mkRect 0 0 81 25))))
        - rect_x (confirmation_area (mkRect 0 0 81 25)) <= 1)%Z /\
  (0 <= (25 - (rect_y (confirmation_area (mkRect 0 0 81 25)) +
               rect_height (confirmation_area (mkRect 0 0 81 25))))
        - rect_y (confirmation_area (mkRect 0 0 81 25)) <= 1)%Z.
Proof.
  apply (X6_confirmation_centered (mkRect 0 0 81 25));
    cbn; unfold u16_modulus; [lia|lia|reflexivity|reflexivity].
Defined.

(** X7: [get_layout_areas] never indexes past the chunks of its splits:
    it returns [n] areas for 1 to 8 timers, and the whole area alone for
    any other count. *)
Theorem X7_layout_area_count
    (split : Direction -> list Constraint -> Rect -> list Rect)
    (split_length : forall d cs r, length (split d cs r) = length cs)
    (area : Rect) (n : nat) :
  exists areas, get_layout_areas split area n = Some areas /\
    length areas = (if (1 <=? n) && (n <=? CAPACITY) then n else 1).
Proof. exact (get_layout_areas_ok split split_length area n). Qed.

Lemma X7_witness :
  exists areas, get_layout_areas whole_split (mkRect 0 0 80 24) 7 = Some areas /\
    length areas = (if (1 <=? 7) && (7 <=? CAPACITY) then 7 else 1).
Proof.
  apply X7_layout_area_count. intros d cs r. unfold whole_split. apply length_map.
Defined.

(** X8: the counter task of timer [i] only ever touches timer [i]'s clock:
    [n] of its ticks advance that clock by [n] seconds of the carry chain
    and leave every other timer's clock as it was. *)
Theorem X8_ticks_touch_own_clock (n : nat) (s : State) (w : World) (i h : nat) (t : Timer) :
  world_ok s w -> timers s !! i = Some t -> task_handle t = Some h ->
  clock_of s (Nat.iter n (task_tick h) w) i = ticks n <$> clock_of s w i /\
  forall j, j <> i -> clock_of s (Nat.iter n (task_tick h) w) j = clock_of s w j.
Proof. apply task_ticks_clock. Qed.

Lemma X8_witness :
  clock_of three_timers (Nat.iter 5 (task_tick 1) three_timers_world) 1 =
    ticks 5 <$> clock_of three_timers three_timers_world 1 /\
  forall j, j <> 1 ->
    clock_of three_timers (Nat.iter 5 (task_tick 1) three_timers_world) j =
    clock_of three_timers three_timers_world j.
Proof.
  apply (X8_ticks_touch_own_clock 5 three_timers three_timers_world 1 1 (mkTimer 1 None (Some 1))).
  - exact three_timers_world_ok.
  - reflexivity.
  - reflexivity.
Defined.

(** X9: [remove_timer] aborts the removed timer's counter task: its later
    ticks change nothing, and no timer left in the registry holds its
    handle. *)
Theorem X9_removed_task_aborted (s s' : State) (w w' : World) (t : Timer) (h : nat) :
  world_ok s w -> 1 < length (timers s) ->
  timers s !! selected_timer s = Some t -> task_handle t = Some h ->
  remove_timer s w = Some (s', w') ->
  task_tick h w' = w' /\ forall i t', timers s' !! i = Some t' -> task_handle t' <> Some h.
Proof. apply remove_timer_aborts. Qed.

Lemma X9_witness :
  task_tick 0 (abort 0 three_timers_world) = abort 0 three_timers_world /\
  forall i t', timers (set_timers (delete 0 (timers three_timers)) three_timers) !! i = Some t' ->
    task_handle t' <> Some 0.
Proof.
  apply (X9_removed_task_aborted three_timers _ three_timers_world _ (mkTimer 0 None (Some 0)) 0).
  - exact three_timers_world_ok.
  - cbn; lia.
  - reflexivity.
  - reflexivity.
  - reflexivity.
Defined.

(** X10: while a label is typed (input mode), no key quits, spawns,
    aborts or ticks anything: the world is untouched, and the selection,
    the UI rate, the help flag, the number of timers and each timer's
    clock and task stay as they were; only labels and the buffer change. *)
Theorem X10_input_mode_keys (k : KeyEvent) (s : State) (w : World) (o : Outcome) :
  input_mode s = true -> handle_key k s w = Some o ->
  exists s', o = Continue s' w /\
    selected_timer s' = selected_timer s /\
    ui_update_rate_ms s' = ui_update_rate_ms s /\ show_help s' = show_help s /\
    length (timers s') = length (timers s) /\
    forall i t', timers s' !! i = Some t' ->
      exists t0, timers s !! i = Some t0 /\ timer_state t' = timer_state t0 /\
                 task_handle t' = task_handle t0.
Proof.
  intros Hm H. destruct o as [s' w'|s' w'].
  - destruct (input_mode_keys k s s' w w' Hm H) as (-> & Hrest). eauto.
  - exfalso. exact (input_mode_no_quit k s s' w w' Hm H).
Qed.

Lemma X10_witness :
  exists s', Continue (set_input true "q" (set_input true "" three_timers)) three_timers_world =
             Continue s' three_timers_world /\
    selected_timer s' = selected_timer (set_input true "" three_timers) /\
    ui_update_rate_ms s' = ui_update_rate_ms (set_input true "" three_timers) /\
    show_help s' = show_help (set_input true "" three_timers) /\
    length (timers s') = length (timers (set_input true "" three_timers)) /\
    forall i t', timers s' !! i = Some t' ->
      exists t0, timers (set_input true "" three_timers) !! i = Some t0 /\
        timer_state t' = timer_state t0 /\ task_handle t' = task_handle t0.
Proof.
  apply (X10_input_mode_keys (mkKey (Char "q") true)); reflexivity.
Defined.

(** X11: in input mode, typing a character and then Backspace gives back
    the state from before, buffer included; the world is untouched. *)
Theorem X11_type_then_backspace (c : Ascii.ascii) (b b' : bool) (s : State) (w : World) :
  input_mode s = true ->
  exists s1, handle_key (mkKey (Char c) b) s w = Some (Continue s1 w) /\
    input_buffer s1 = string_push (input_buffer s) c /\
    handle_key (mkKey Backspace b') s1 w = Some (Continue s w).
Proof.
  intros Hm. destruct s as [ts sel r m buf hp]; cbn in Hm; subst m.
  eexists. split; [reflexivity|]. split; [reflexivity|].
  cbn -[string_pop string_push]. rewrite string_pop_push. reflexivity.
Qed.

Lemma X11_witness :
  exists s1, handle_key (mkKey (Char "x") false) (set_input true "la" three_timers)
               three_timers_world = Some (Continue s1 three_timers_world) /\
    input_buffer s1 = string_push (input_buffer (set_input true "la" three_timers)) "x" /\
    handle_key (mkKey Backspace false) s1 three_timers_world =
      Some (Continue (set_input true "la" three_timers) three_timers_world).
Proof. apply X11_type_then_backspace. reflexivity. Defined.

(** X12: the quit prompt is opened by [Ctrl+q] outside input mode and by
    nothing else, and opening it changes neither the registry nor the
    world. *)
Theorem X12_quit_prompt_only_ctrl_q (k : KeyEvent) (s s' : State) (w w' : World) :
  handle_key k s w = Some (ConfirmQuit s' w') <->
  input_mode s = false /\ code k = Char "q"%char /\ ctrl k = true /\ s' = s /\ w' = w.
Proof.
  split.
  - intros H. destruct (handle_key_confirm _ _ _ _ _ H) as (-> & -> & Hm & Hc & Hk).
    tauto.
  - intros (Hm & Hc & Hk & -> & ->). unfold handle_key. rewrite Hm, Hc, Hk. reflexivity.
Qed.

(** X13: the confirmation loop after [Ctrl+q] decides on the first key
    that is ['y'] or ['n'] and skips every other key: it ends [main]
    ([Some true]) exactly when that key is ['y'], and returns to the main
    loop ([Some false]) exactly when it is ['n']. *)
Theorem X13_confirm_first_y_or_n (ks : list KeyCode) (b : bool) :
  confirm_loop ks = Some b <->
  exists pre rest, ks = pre ++ Char (if b then "y" else "n")%char :: rest /\
    Forall (fun k => k <> Char "y"%char /\ k <> Char "n"%char) pre.
Proof. apply confirm_loop_spec. Qed.

(** X14: [n] runs of [counter] from [Time::new()] give the clock
    [n mod 60] seconds, [(n / 60) mod 60] minutes, [(n / 3600) mod 24]
    hours and [(n / 86400) mod 65536] days. *)
Theorem X14_ticks_closed_form (n : nat) :
  ticks n Time_new =
    mkTime (Z.of_nat n mod 60) ((Z.of_nat n / 60) mod 60) ((Z.of_nat n / 3600) mod 24)
           ((Z.of_nat n / 86400) mod 65536).
Proof. apply ticks_closed_form. Qed.

End Extras.
